(** * A shallow embedding of the wazero / SQLite host bridge (main.go)

    The Go program drives a SQLite build compiled to Wasm through wazero.
    The guest module is an external collaborator: it is modelled as a table
    of exported functions acting on the module's machine state (its linear
    memory and its globals).  The host code of main.go is modelled in an
    error/state monad whose state holds the client struct [sqliteModule],
    the guest machine and a trace of the host's observable actions (calls
    into the guest and accesses to its memory).  Every [log.Panic*] of the
    source, and every Go runtime panic (nil function value, index out of
    range), is a failure of the monad. *)

From Stdlib Require Import ZArith List String Ascii Lia.
Import ListNotations.
Open Scope Z_scope.

(** ** Machine integers *)

Definition u32 (z : Z) : Z := z mod 2 ^ 32.
Definition u64 (z : Z) : Z := z mod 2 ^ 64.

(** Go's [int(x)] for [x : uint64] on a 64-bit target: two's complement
    reinterpretation. *)
Definition go_int (x : Z) : Z :=
  let y := u64 x in if y <? 2 ^ 63 then y else y - 2 ^ 64.

(** ** Guest linear memory: a list of bytes (each an 8-bit Z). *)

Definition byte := Z.
Definition bytes := list byte.

(** Go's [[]byte(str)] of a string literal. *)
Definition bytes_of_string (s : string) : bytes :=
  map (fun a => Z.of_nat (nat_of_ascii a)) (list_ascii_of_string s).

(** wazero's [hasSize]: [uint64(offset) + byteCount <= len(buffer)]. *)
Definition hasSize (mem : bytes) (off cnt : Z) : bool :=
  (0 <=? off) && (0 <=? cnt) && (off + cnt <=? Z.of_nat (List.length mem)).

Definition slice (mem : bytes) (off cnt : Z) : bytes :=
  firstn (Z.to_nat cnt) (skipn (Z.to_nat off) mem).

(** [api.Memory.Read(ctx, offset, byteCount)]. *)
Definition memRead (mem : bytes) (off cnt : Z) : option bytes :=
  if hasSize mem off cnt then Some (slice mem off cnt) else None.

Definition le32 (b : bytes) : Z :=
  match b with
  | [b0; b1; b2; b3] => b0 + 2 ^ 8 * b1 + 2 ^ 16 * b2 + 2 ^ 24 * b3
  | _ => 0
  end.

(** [api.Memory.ReadUint32Le(ctx, offset)]. *)
Definition memReadUint32Le (mem : bytes) (off : Z) : option Z :=
  if hasSize mem off 4 then Some (le32 (slice mem off 4)) else None.

(** [api.Memory.Write(ctx, offset, val)]. *)
Definition memWrite (mem : bytes) (off : Z) (val : bytes) : option bytes :=
  if hasSize mem off (Z.of_nat (List.length val))
  then Some (firstn (Z.to_nat off) mem ++ val
             ++ skipn (Z.to_nat off + List.length val) mem)
  else None.

(** ** The guest module *)

Record Mach := mkMach { mem : bytes; globals : list Z }.

(** Result of invoking an exported function: a trap, or the returned
    values together with the new machine state. *)
Inductive outcome :=
| Trap
| Ret (results : list Z) (m : Mach).

(** The module's export table. *)
Definition Guest := string -> option (list Z -> Mach -> outcome).

(** ** Host side: the client struct, events, errors *)

(** An [api.Function] value: the export's name, or [nil] when
    [ExportedFunction] found no such export. *)
Definition Function := option string.

(** [sqliteModule]; its [memory] field is the single linear memory of the
    machine state, so it is not repeated here. *)
Record sqliteModule := mkSqliteModule {
  open : Function;
  exec : Function;
  getResultPtr : Function;
  getResultSize : Function;
  prepare : Function;
  step : Function;
  columnInt : Function;
  columnText : Function;
  alloc : Function;
  dbHandle : Z
}.

(** Observable actions of the host, most recent first in the trace; a
    memory access is logged with the answer the runtime gave. *)
Inductive event :=
| ECall (name : string) (args results : list Z)
| ETrap (name : string) (args : list Z)
| ENilCall (args : list Z)
| ERead (off cnt : Z) (answer : option bytes)
| EReadU32 (off : Z) (answer : option Z)
| EWrite (off : Z) (val : bytes) (ok : bool).

Inductive call_failure :=
| NilFunction               (* Call on a nil api.Function: Go nil dereference *)
| Trapped (name : string).  (* Call returned a non-nil err *)

Inductive err :=
| CallError (why : call_failure)
| NoResult                     (* res[0] on an empty result slice *)
| MemoryAccessError (what : string)
| AllocationError              (* "failed to write name" *)
| BadStatement (at_ : Z)       (* "failed to read prepared statement at %d" *)
| EngineError (code : Z) (msg : bytes)
| OutOfFuel.                   (* the row loop ran longer than the fuel *)

Record St := mkSt { cl : sqliteModule; mach : Mach; trace : list event }.

(** ** The error/state monad *)

Definition M (A : Type) := St -> (err + A) * St.

Definition ret {A} (a : A) : M A := fun st => (inr a, st).
Definition fail {A} (e : err) : M A := fun st => (inl e, st).
Definition bind {A B} (m : M A) (k : A -> M B) : M B :=
  fun st => match m st with
            | (inr a, st1) => k a st1
            | (inl e, st1) => (inl e, st1)
            end.

Notation "x <- m ;; k" := (bind m (fun x => k))
  (at level 61, m at next level, right associativity).
Notation "m ;; k" := (bind m (fun _ => k))
  (at level 61, right associativity).
Notation "' pat <- m ;; k" := (bind m (fun pat => k))
  (at level 61, pat pattern, m at next level, right associativity).

Definition getS : M sqliteModule := fun st => (inr (cl st), st).
Definition putS (s : sqliteModule) : M unit :=
  fun st => (inr tt, mkSt s (mach st) (trace st)).
Definition emit (e : event) : M unit :=
  fun st => (inr tt, mkSt (cl st) (mach st) (e :: trace st)).
Definition getMach : M Mach := fun st => (inr (mach st), st).
Definition putMach (m : Mach) : M unit :=
  fun st => (inr tt, mkSt (cl st) m (trace st)).

Section Host.

Variable guest : Guest.

(** [sqlite.ExportedFunction(name)]. *)
Definition ExportedFunction (name : string) : Function :=
  match guest name with Some _ => Some name | None => None end.

(** [f.Call(ctx, args...)]: results are the runtime's [[]uint64]. *)
Definition Call (f : Function) (args : list Z) : M (list Z) :=
  match f with
  | None => emit (ENilCall args) ;; fail (CallError NilFunction)
  | Some name =>
      match guest name with
      | None => emit (ENilCall args) ;; fail (CallError NilFunction)
      | Some fn =>
          m <- getMach ;;
          match fn args m with
          | Trap => emit (ETrap name args) ;; fail (CallError (Trapped name))
          | Ret rs m' =>
              putMach m' ;;
              emit (ECall name args (map u64 rs)) ;;
              ret (map u64 rs)
          end
      end
  end.

(** [res[0]]. *)
Definition res0 (res : list Z) : M Z :=
  match res with r :: _ => ret r | [] => fail NoResult end.

Definition Read (off cnt : Z) : M (option bytes) :=
  m <- getMach ;;
  let a := memRead (mem m) off cnt in
  emit (ERead off cnt a) ;; ret a.

Definition ReadUint32Le (off : Z) : M (option Z) :=
  m <- getMach ;;
  let a := memReadUint32Le (mem m) off in
  emit (EReadU32 off a) ;; ret a.

Definition Write (off : Z) (val : bytes) : M bool :=
  m <- getMach ;;
  match memWrite (mem m) off val with
  | Some mem' =>
      putMach (mkMach mem' (globals m)) ;; emit (EWrite off val true) ;; ret true
  | None => emit (EWrite off val false) ;; ret false
  end.

(** ** The client: methods of [sqliteModule] *)

(** [allocateString] (main.go 211-223). *)
Definition allocateString (str : bytes) : M (Z * Z) :=
  s <- getS ;;
  res <- Call (alloc s) [Z.of_nat (List.length str); 0] ;;
  ptr <- res0 res ;;
  r <- res0 res ;;
  ok <- Write (u32 r) str ;;
  if ok then ret (ptr, Z.of_nat (List.length str)) else fail AllocationError.

(** [ensureStatusCodeSuccess] (main.go 260-269). *)
Definition ensureStatusCodeSuccess (resultPpr : Z) (errMsg : bytes) : M unit :=
  o <- ReadUint32Le resultPpr ;;
  match o with
  | None => fail (MemoryAccessError "cannot read return code")
  | Some retCode =>
      if retCode =? 0 then ret tt else fail (EngineError retCode errMsg)
  end.

Definition with_dbHandle (s : sqliteModule) (h : Z) : sqliteModule :=
  mkSqliteModule (open s) (exec s) (getResultPtr s) (getResultSize s)
    (prepare s) (step s) (columnInt s) (columnText s) (alloc s) h.

(** The struct literal of [newSqlModule] (main.go 87-98). *)
Definition bound_client : sqliteModule :=
  mkSqliteModule
    (ExportedFunction "sqlite3_open_v2")
    (ExportedFunction "sqlite3_exec")
    (ExportedFunction "get_result_ptr")
    (ExportedFunction "get_result_size")
    (ExportedFunction "sqlite3_prepare_v2")
    (ExportedFunction "sqlite3_step")
    (ExportedFunction "sqlite3_column_int64")
    (ExportedFunction "sqlite3_column_text")
    (ExportedFunction "allocate")
    0.

(** [newSqlModule] (main.go 81-122) on an instantiated module, in two
    halves: building the struct and calling open (87-107), then decoding
    the open call's result (109-121). *)
Definition newSqlModule_open : M unit :=
  putS bound_client ;;
  '(dbNamePtr, dbNameSize) <- allocateString (bytes_of_string ":memory:") ;;
  '(fsNamePtr, fsNameSize) <- allocateString (bytes_of_string "") ;;
  s <- getS ;;
  _ <- Call (open s) [dbNamePtr; dbNameSize; 6; fsNamePtr; fsNameSize] ;;
  ret tt.

Definition newSqlModule_handle : M sqliteModule :=
  s <- getS ;;
  res <- Call (getResultPtr s) [] ;;
  r <- res0 res ;;
  ensureStatusCodeSuccess (u32 r) (bytes_of_string "db pointer") ;;
  o <- ReadUint32Le (u32 (u64 (r + 4))) ;;
  match o with
  | None => fail (MemoryAccessError "cannot take db pointer")
  | Some h => putS (with_dbHandle s h) ;; getS
  end.

Definition newSqlModule : M sqliteModule :=
  newSqlModule_open ;; newSqlModule_handle.

(** [execSql] (main.go 225-258): running the statement (226-232), then
    decoding its result (234-257). *)
Definition execSql_run (query : bytes) : M unit :=
  '(queryPtr, querySize) <- allocateString query ;;
  s <- getS ;;
  _ <- Call (exec s) [dbHandle s; queryPtr; querySize; 0; 0] ;;
  ret tt.

Definition execSql_result : M unit :=
  s <- getS ;;
  res <- Call (getResultPtr s) [] ;;
  r <- res0 res ;;
  o1 <- ReadUint32Le (u32 (u64 (r + 4))) ;;
  match o1 with
  | None => fail (MemoryAccessError "cannot read err msg ptr")
  | Some errMsgPtr =>
  o2 <- ReadUint32Le (u32 (u64 (r + 8))) ;;
  match o2 with
  | None => fail (MemoryAccessError "cannot read err msg size")
  | Some errMsgSize =>
  errMsg <- (if errMsgSize =? 0 then ret []
             else o3 <- Read errMsgPtr errMsgSize ;;
                  match o3 with
                  | None => fail (MemoryAccessError "cannot read err msg")
                  | Some raw => ret raw
                  end) ;;
  ensureStatusCodeSuccess (u32 r) errMsg
  end
  end.

Definition execSql (query : bytes) : M unit :=
  execSql_run query ;; execSql_result.

(** [execSelectUsers], lines 130-149: preparing the statement, in two
    halves like [execSql]. *)
Definition prepareStmt_run (query : bytes) : M unit :=
  '(queryPtr, querySize) <- allocateString query ;;
  s <- getS ;;
  _ <- Call (prepare s) [dbHandle s; queryPtr; querySize] ;;
  ret tt.

Definition prepareStmt_result : M Z :=
  s <- getS ;;
  res <- Call (getResultPtr s) [] ;;
  r <- res0 res ;;
  ensureStatusCodeSuccess (u32 r) (bytes_of_string "failed to prepare") ;;
  o <- ReadUint32Le (u32 (u64 (r + 4))) ;;
  match o with
  | Some stmt => if stmt =? 0 then fail (BadStatement (u64 (r + 4))) else ret stmt
  | None => fail (BadStatement (u64 (r + 4)))
  end.

Definition prepareStmt (query : bytes) : M Z :=
  prepareStmt_run query ;; prepareStmt_result.

Definition SQLITE_ROW : Z := 100.

(** [readInt] (main.go 170-176). *)
Definition readInt (stmt columnIndex : Z) : M Z :=
  s <- getS ;;
  res <- Call (columnInt s) [stmt; columnIndex] ;;
  r <- res0 res ;;
  ret (go_int r).

(** [readText] (main.go 179-201). *)
Definition readText (stmt columnIndex : Z) : M bytes :=
  s <- getS ;;
  _ <- Call (columnText s) [stmt; columnIndex] ;;
  textPtr <- Call (getResultPtr s) [] ;;
  textSize <- Call (getResultSize s) [] ;;
  p <- res0 textPtr ;;
  n <- res0 textSize ;;
  o <- Read (u32 p) (u32 n) ;;
  match o with
  | None => fail (MemoryAccessError "failed to read text")
  | Some raw => ret raw
  end.

(** [execStep] (main.go 203-209). *)
Definition execStep (stmt : Z) : M Z :=
  s <- getS ;;
  res <- Call (step s) [stmt] ;;
  r <- res0 res ;;
  ret (go_int r).

Record user := mkUser { id : Z; name : bytes }.

(** The loop of [execSelectUsers] (main.go 152-164); [fuel] bounds the
    number of iterations. *)
Fixpoint rowLoop (fuel : nat) (stmt rc : Z) (users : list user) : M (list user) :=
  if rc =? SQLITE_ROW then
    match fuel with
    | O => fail OutOfFuel
    | S fuel' =>
        id <- readInt stmt 0 ;;
        name <- readText stmt 1 ;;
        rc' <- execStep stmt ;;
        rowLoop fuel' stmt rc' (users ++ [mkUser id name])
    end
  else ret users.

(** [execSelectUsers] (main.go 129-165). *)
Definition execSelectUsers (fuel : nat) (query : bytes) : M (list user) :=
  stmt <- prepareStmt query ;;
  rc <- execStep stmt ;;
  rowLoop fuel stmt rc [].

End Host.

(** ** A small concrete guest, for running the client on explicit inputs

    It keeps its result envelope at address 0 (status at 0, auxiliary
    pointer at 4, auxiliary size at 8); its globals are
    [[result_ptr; result_size; rows_left]].  [demo_guest st aux msg]:
    open/exec/prepare report status [st]; open and prepare put [aux] in the
    auxiliary-pointer field; exec puts the message [msg] at 64 and its range
    in the auxiliary fields; the step export yields [rows_left] rows whose
    text column is "go" at 96. *)

Definition le_bytes (v : Z) : bytes :=
  [v mod 2 ^ 8; (v / 2 ^ 8) mod 2 ^ 8; (v / 2 ^ 16) mod 2 ^ 8; (v / 2 ^ 24) mod 2 ^ 8].

Definition store (m : bytes) (off : Z) (val : bytes) : bytes :=
  match memWrite m off val with Some m' => m' | None => m end.

Definition store32 (m : bytes) (off v : Z) : bytes := store m off (le_bytes v).

Definition demo_guest (status aux : Z) (msg : bytes) : Guest :=
  fun name =>
  if String.eqb name "allocate" then
    Some (fun args m => match args with [_; _] => Ret [128] m | _ => Trap end)
  else if String.eqb name "sqlite3_open_v2" then
    Some (fun _ m =>
      Ret [0] (mkMach (store32 (store32 (mem m) 0 status) 4 aux)
                      (0 :: tl (globals m))))
  else if String.eqb name "sqlite3_exec" then
    Some (fun _ m =>
      Ret [0] (mkMach (store (store32 (store32 (store32 (mem m) 0 status) 4 64)
                                      8 (Z.of_nat (List.length msg))) 64 msg)
                      (0 :: tl (globals m))))
  else if String.eqb name "sqlite3_prepare_v2" then
    Some (fun _ m =>
      Ret [0] (mkMach (store32 (store32 (mem m) 0 status) 4 aux)
                      (0 :: tl (globals m))))
  else if String.eqb name "get_result_ptr" then
    Some (fun _ m => Ret [nth 0 (globals m) 0] m)
  else if String.eqb name "get_result_size" then
    Some (fun _ m => Ret [nth 1 (globals m) 0] m)
  else if String.eqb name "sqlite3_step" then
    Some (fun _ m =>
      let left := nth 2 (globals m) 0 in
      if 0 <? left
      then Ret [100] (mkMach (mem m) [nth 0 (globals m) 0; nth 1 (globals m) 0; left - 1])
      else Ret [101] m)
  else if String.eqb name "sqlite3_column_int64" then
    Some (fun _ m => Ret [nth 2 (globals m) 0] m)
  else if String.eqb name "sqlite3_column_text" then
    Some (fun _ m => Ret [0] (mkMach (store (mem m) 96 (bytes_of_string "go"))
                                     [96; 2; nth 2 (globals m) 0]))
  else None.

(** 256 bytes of memory, zero except the byte at 20, which holds 7. *)
Definition demo_mem : bytes := store (repeat 0 256) 20 [7].

Definition demo_client : sqliteModule :=
  mkSqliteModule None None None None None None None None None 0.

Definition demo_state (rows : Z) : St :=
  mkSt demo_client (mkMach demo_mem [0; 0; rows]) [].

Definition demo_run (g : Guest) (rows : Z) {A} (op : sqliteModule -> M A) :=
  bind (newSqlModule g) op (demo_state rows).

Example demo_select :
  fst (demo_run (demo_guest 0 16 []) 2
         (fun _ => execSql (demo_guest 0 16 []) (bytes_of_string "INSERT") ;;
                   execSelectUsers (demo_guest 0 16 []) 10 (bytes_of_string "SELECT")))
  = inr [mkUser 1 (bytes_of_string "go"); mkUser 0 (bytes_of_string "go")].
Proof. vm_compute. reflexivity. Qed.

(** ** Monad and primitive lemmas *)

Lemma bind_inr {A B} (m : M A) (k : A -> M B) st a st1 :
  m st = (inr a, st1) -> bind m k st = k a st1.
Proof. intros H. unfold bind. rewrite H. reflexivity. Qed.

Lemma bind_inl {A B} (m : M A) (k : A -> M B) st e st1 :
  m st = (inl e, st1) -> bind m k st = (inl e, st1).
Proof. intros H. unfold bind. rewrite H. reflexivity. Qed.

Lemma bind_inv {A B} (m : M A) (k : A -> M B) st r st' :
  bind m k st = (r, st') ->
  (exists e, r = inl e /\ m st = (inl e, st')) \/
  (exists a st1, m st = (inr a, st1) /\ k a st1 = (r, st')).
Proof.
  unfold bind. destruct (m st) as [[e|a] st1]; intros H.
  - left. inversion H; subst. eauto.
  - right. eauto.
Qed.

Ltac step_monad :=
  repeat match goal with
  | H : bind _ _ _ = (_, _) |- _ =>
      apply bind_inv in H;
      destruct H as [(? & ? & H) | (? & ? & ? & H)]
  end.

Ltac unfold_ops H :=
  unfold newSqlModule_handle, prepareStmt_result, execSql_result, readInt,
    readText, execStep, allocateString, ensureStatusCodeSuccess, Call, res0,
    Read, ReadUint32Le, Write, bind, ret, fail, getS, emit, getMach, putMach,
    putS in H; simpl in H.

(** Case analysis on every decision of a run, innermost first. *)
Ltac split_in H :=
  repeat (match type of H with
          | context[match ?x with _ => _ end] =>
              lazymatch x with
              | context[match _ with _ => _ end] => fail
              | _ => destruct x eqn:?
              end
          end; simpl in H; try discriminate H).

(** ** C1: where the open and prepare handles come from *)

(** Decoding the open call's envelope: the handle is the u32 at the
    envelope base + 4. *)
Lemma newSqlModule_handle_inv g st1 s st' :
  newSqlModule_handle g st1 = (inr s, st') ->
  exists n B rs,
    getResultPtr (cl st1) = Some n /\
    trace st' = EReadU32 (u32 (u64 (B + 4))) (Some (dbHandle s))
                :: EReadU32 (u32 B) (Some 0)
                :: ECall n [] (B :: rs) :: trace st1 /\
    memReadUint32Le (mem (mach st')) (u32 B) = Some 0 /\
    memReadUint32Le (mem (mach st')) (u32 (u64 (B + 4))) = Some (dbHandle s).
Proof.
  intros H. unfold_ops H. split_in H.
  inversion H; subst. apply Z.eqb_eq in Heqb; subst.
  do 3 eexists. simpl. repeat split; eauto.
Qed.

Lemma prepareStmt_result_inv g st1 stmt st' :
  prepareStmt_result g st1 = (inr stmt, st') ->
  exists n B rs,
    getResultPtr (cl st1) = Some n /\
    trace st' = EReadU32 (u32 (u64 (B + 4))) (Some stmt)
                :: EReadU32 (u32 B) (Some 0)
                :: ECall n [] (B :: rs) :: trace st1 /\
    memReadUint32Le (mem (mach st')) (u32 B) = Some 0 /\
    memReadUint32Le (mem (mach st')) (u32 (u64 (B + 4))) = Some stmt /\
    stmt <> 0.
Proof.
  intros H. unfold_ops H. split_in H.
  inversion H; subst. apply Z.eqb_eq in Heqb. apply Z.eqb_neq in Heqb0. subst.
  do 3 eexists. simpl. repeat split; eauto.
Qed.

(** The open handle on the concrete guest: the envelope is at 0, its
    auxiliary-pointer field holds 16, and the u32 at 16 + 4 is 7. *)
Definition demo_open_result :=
  Eval vm_compute in newSqlModule (demo_guest 0 16 []) (demo_state 0).

(** C1 (as stated, refuted): on the concrete guest, open succeeds with
    envelope base 0 and auxiliary pointer 16, and the handle the client
    keeps is 16, not the u32 stored at auxPointer + 4 = 20 (which is 7). *)
Lemma C1_counterexample :
  ~ (forall g st s st',
       newSqlModule g st = (inr s, st') ->
       forall n B rs t a1 a2,
         trace st' = EReadU32 (u32 (u64 (B + 4))) a1 :: EReadU32 (u32 B) a2
                     :: ECall n [] (B :: rs) :: t ->
         exists auxPointer,
           memReadUint32Le (mem (mach st')) (u32 (B + 4)) = Some auxPointer /\
           memReadUint32Le (mem (mach st')) (u32 (auxPointer + 4))
             = Some (dbHandle s)).
Proof.
  intros Hclaim.
  destruct (Hclaim (demo_guest 0 16 []) (demo_state 0)
              (match fst demo_open_result with inr s => s | inl _ => demo_client end)
              (snd demo_open_result) eq_refl "get_result_ptr"%string 0 [] (skipn 3 (trace (snd demo_open_result)))
              (Some 16) (Some 0))
    as (aux & H1 & H2).
  - vm_compute. reflexivity.
  - vm_compute in H1. inversion H1; subst. vm_compute in H2. discriminate H2.
Qed.

(** C1 (amended): after a successful open, and after a successful prepare,
    the handle is the u32 read little-endian at envelope base + 4, i.e. the
    envelope's auxiliary-pointer field itself, where the envelope base [B]
    is the result of the [get_result_ptr] call that follows the open
    (respectively prepare) call; the status at [B] was 0; a prepared
    statement handle is moreover non-zero. *)
Theorem C1_handle_is_aux_field g :
  (forall st s st',
     newSqlModule g st = (inr s, st') ->
     exists st1 n B rs,
       newSqlModule_open g st = (inr tt, st1) /\
       getResultPtr (cl st1) = Some n /\
       trace st' = EReadU32 (u32 (u64 (B + 4))) (Some (dbHandle s))
                   :: EReadU32 (u32 B) (Some 0)
                   :: ECall n [] (B :: rs) :: trace st1 /\
       memReadUint32Le (mem (mach st')) (u32 B) = Some 0 /\
       memReadUint32Le (mem (mach st')) (u32 (u64 (B + 4))) = Some (dbHandle s)) /\
  (forall q st stmt st',
     prepareStmt g q st = (inr stmt, st') ->
     exists st1 n B rs,
       prepareStmt_run g q st = (inr tt, st1) /\
       getResultPtr (cl st1) = Some n /\
       trace st' = EReadU32 (u32 (u64 (B + 4))) (Some stmt)
                   :: EReadU32 (u32 B) (Some 0)
                   :: ECall n [] (B :: rs) :: trace st1 /\
       memReadUint32Le (mem (mach st')) (u32 B) = Some 0 /\
       memReadUint32Le (mem (mach st')) (u32 (u64 (B + 4))) = Some stmt /\
       stmt <> 0).
Proof.
  split.
  - intros st s st' H. unfold newSqlModule in H. step_monad; [discriminate |].
    destruct x. apply newSqlModule_handle_inv in H.
    destruct H as (n & B & rs & H). exists x0, n, B, rs. auto.
  - intros q st stmt st' H. unfold prepareStmt in H. step_monad; [discriminate |].
    destruct x. apply prepareStmt_result_inv in H.
    destruct H as (n & B & rs & H). exists x0, n, B, rs. auto.
Qed.

Definition demo_prepare_result :=
  Eval vm_compute in
    bind (newSqlModule (demo_guest 0 16 []))
         (fun _ => prepareStmt (demo_guest 0 16 []) (bytes_of_string "SELECT"))
         (demo_state 0).

Definition demo_after_open : St := Eval vm_compute in snd demo_open_result.

Lemma C1_witness :
  (exists st1 n B rs,
     newSqlModule_open (demo_guest 0 16 []) (demo_state 0) = (inr tt, st1) /\
     getResultPtr (cl st1) = Some n /\
     trace (snd demo_open_result)
       = EReadU32 (u32 (u64 (B + 4))) (Some 16) :: EReadU32 (u32 B) (Some 0)
         :: ECall n [] (B :: rs) :: trace st1 /\
     memReadUint32Le (mem (mach (snd demo_open_result))) (u32 B) = Some 0 /\
     memReadUint32Le (mem (mach (snd demo_open_result))) (u32 (u64 (B + 4)))
       = Some 16) /\
  (exists st1 n B rs,
     prepareStmt_run (demo_guest 0 16 []) (bytes_of_string "SELECT") demo_after_open
       = (inr tt, st1) /\
     getResultPtr (cl st1) = Some n /\
     trace (snd demo_prepare_result)
       = EReadU32 (u32 (u64 (B + 4))) (Some 16) :: EReadU32 (u32 B) (Some 0)
         :: ECall n [] (B :: rs) :: trace st1 /\
     memReadUint32Le (mem (mach (snd demo_prepare_result))) (u32 B) = Some 0 /\
     memReadUint32Le (mem (mach (snd demo_prepare_result))) (u32 (u64 (B + 4)))
       = Some 16 /\ 16 <> 0).
Proof.
  split.
  - apply (proj1 (C1_handle_is_aux_field (demo_guest 0 16 [])) (demo_state 0)
             (with_dbHandle (cl demo_after_open) 16)).
    vm_compute. reflexivity.
  - apply (proj2 (C1_handle_is_aux_field (demo_guest 0 16 []))
             (bytes_of_string "SELECT") demo_after_open).
    vm_compute. reflexivity.
Defined.

(** ** C2: the error message of a failed execute *)

Lemma memRead_length m off cnt raw :
  memRead m off cnt = Some raw -> Z.of_nat (List.length raw) = cnt.
Proof.
  unfold memRead, hasSize, slice. intros H.
  destruct (0 <=? off) eqn:H1; [|discriminate].
  destruct (0 <=? cnt) eqn:H2; [|discriminate].
  destruct (off + cnt <=? Z.of_nat (List.length m)) eqn:H3; [|discriminate].
  simpl in H. inversion H; subst.
  apply Z.leb_le in H1, H2, H3.
  rewrite length_firstn, length_skipn. lia.
Qed.

(** C2 (amended): after an execute whose envelope (base [B], the result of
    the [get_result_ptr] call that follows the exec call) has a non-zero
    status [code], the failure is [EngineError code msg] where the message
    range is given by the envelope's own fields: pointer = the u32 at
    [B + 4] (the auxiliary-pointer field), length = the u32 at [B + 8] (the
    auxiliary-size field).  When the length is 0 the message is empty and
    no byte range is read; otherwise the message is the (non-empty) bytes of
    that range, provided it lies in memory. *)
Theorem C2_exec_error_message g q st st1 n fn rs0 m B rs code p len :
  execSql_run g q st = (inr tt, st1) ->
  getResultPtr (cl st1) = Some n -> g n = Some fn ->
  fn [] (mach st1) = Ret rs0 m -> map u64 rs0 = B :: rs ->
  memReadUint32Le (mem m) (u32 B) = Some code -> code <> 0 ->
  memReadUint32Le (mem m) (u32 (u64 (B + 4))) = Some p ->
  memReadUint32Le (mem m) (u32 (u64 (B + 8))) = Some len ->
  (len = 0 ->
   execSql g q st =
     (inl (EngineError code []),
      mkSt (cl st1) m
        (EReadU32 (u32 B) (Some code) :: EReadU32 (u32 (u64 (B + 8))) (Some len)
         :: EReadU32 (u32 (u64 (B + 4))) (Some p) :: ECall n [] (B :: rs)
         :: trace st1))) /\
  (len <> 0 -> forall raw, memRead (mem m) p len = Some raw ->
   execSql g q st =
     (inl (EngineError code raw),
      mkSt (cl st1) m
        (EReadU32 (u32 B) (Some code) :: ERead p len (Some raw)
         :: EReadU32 (u32 (u64 (B + 8))) (Some len)
         :: EReadU32 (u32 (u64 (B + 4))) (Some p) :: ECall n [] (B :: rs)
         :: trace st1)) /\
   raw <> []).
Proof.
  intros Hrun Hn Hg Hfn Hmap Hcode Hnz Hp Hlen.
  unfold execSql. rewrite (bind_inr _ _ _ _ _ Hrun).
  unfold execSql_result, ensureStatusCodeSuccess, Call, res0, Read, ReadUint32Le,
    bind, ret, fail, getS, emit, getMach, putMach, putS; simpl.
  rewrite Hn, Hg. simpl. rewrite Hfn. simpl. rewrite Hmap. simpl.
  rewrite Hp. simpl. rewrite Hlen. simpl. split.
  - intros ->. simpl. rewrite Hcode. apply Z.eqb_neq in Hnz. rewrite Hnz. reflexivity.
  - intros Hl raw Hraw. apply Z.eqb_neq in Hl. rewrite Hl. simpl. rewrite Hraw. simpl.
    rewrite Hcode. apply Z.eqb_neq in Hnz. rewrite Hnz. split; [reflexivity|].
    intros ->. apply memRead_length in Hraw. simpl in Hraw. apply Z.eqb_neq in Hl. lia.
Qed.

(** The exec call of the concrete guest, with status 1 and the one-byte
    message "e" (101) at 64. *)
Definition demo_exec_guest : Guest := demo_guest 1 16 [101].

Definition demo_fn (g : Guest) (name : string) : list Z -> Mach -> outcome :=
  match g name with Some f => f | None => fun _ _ => Trap end.

Definition demo_exec_mid : St :=
  Eval vm_compute in
    snd (execSql_run demo_exec_guest (bytes_of_string "INSERT") demo_after_open).

(** C2 (as stated, refuted): the envelope base is 0, its auxiliary-pointer
    field holds 64, the u32 at 64 + 8 is 0, yet the failure carries the
    non-empty message [101]: the code takes the message range from the
    envelope fields at base + 4 and base + 8, not from auxPointer + 4 and
    auxPointer + 8. *)
Lemma C2_counterexample :
  ~ (forall g q st st1 n fn rs0 m B rs code aux len,
       execSql_run g q st = (inr tt, st1) ->
       getResultPtr (cl st1) = Some n -> g n = Some fn ->
       fn [] (mach st1) = Ret rs0 m -> map u64 rs0 = B :: rs ->
       memReadUint32Le (mem m) (u32 B) = Some code -> code <> 0 ->
       memReadUint32Le (mem m) (u32 (B + 4)) = Some aux ->
       memReadUint32Le (mem m) (u32 (aux + 8)) = Some len ->
       len = 0 ->
       fst (execSql g q st) = inl (EngineError code [])).
Proof.
  intros Hclaim.
  specialize (Hclaim demo_exec_guest (bytes_of_string "INSERT") demo_after_open
                demo_exec_mid "get_result_ptr"%string
                (demo_fn demo_exec_guest "get_result_ptr") [0] (mach demo_exec_mid)
                0 [] 1 64 0).
  vm_compute in Hclaim.
  assert (H : inl (EngineError 1 [101]) = inl (B := unit) (EngineError 1 []))
    by (apply Hclaim; first [reflexivity | discriminate]).
  discriminate H.
Qed.

Lemma C2_witness :
  exists st', execSql demo_exec_guest (bytes_of_string "INSERT") demo_after_open
              = (inl (EngineError 1 [101]), st').
Proof.
  destruct (C2_exec_error_message demo_exec_guest (bytes_of_string "INSERT")
              demo_after_open demo_exec_mid "get_result_ptr"%string
              (demo_fn demo_exec_guest "get_result_ptr") [0] (mach demo_exec_mid)
              0 [] 1 64 1) as [_ H];
    try (vm_compute; reflexivity); try discriminate.
  destruct (H ltac:(discriminate) [101]) as [E _].
  - vm_compute. reflexivity.
  - eexists. exact E.
Defined.

(** ** C3: the step loop *)

(** C3: the loop reads a row (integer column 0, text column 1, then one
    more step) exactly when the step result is [SQLITE_ROW] = 100; any
    other step result ends the loop at once, successfully, with the rows
    read so far and with no further call or memory access (the state,
    trace included, is unchanged); in particular a query whose first step
    is not 100 returns the empty list. *)
Theorem C3_rows_while_step_is_row g :
  (forall fuel stmt rc users st,
     rc <> SQLITE_ROW -> rowLoop g fuel stmt rc users st = (inr users, st)) /\
  (forall fuel stmt users st,
     rowLoop g (S fuel) stmt SQLITE_ROW users st =
     (id <- readInt g stmt 0 ;;
      name <- readText g stmt 1 ;;
      rc' <- execStep g stmt ;;
      rowLoop g fuel stmt rc' (users ++ [mkUser id name])) st) /\
  (forall fuel q st stmt st1 rc st2,
     prepareStmt g q st = (inr stmt, st1) ->
     execStep g stmt st1 = (inr rc, st2) ->
     rc <> SQLITE_ROW ->
     execSelectUsers g fuel q st = (inr [], st2)).
Proof.
  split; [| split].
  - intros fuel stmt rc users st Hrc. destruct fuel; simpl;
      apply Z.eqb_neq in Hrc; rewrite Hrc; reflexivity.
  - reflexivity.
  - intros fuel q st stmt st1 rc st2 Hp Hs Hrc.
    unfold execSelectUsers. rewrite (bind_inr _ _ _ _ _ Hp).
    rewrite (bind_inr _ _ _ _ _ Hs).
    destruct fuel; simpl; apply Z.eqb_neq in Hrc; rewrite Hrc; reflexivity.
Qed.

Definition demo_prepared : St :=
  Eval vm_compute in
    snd (prepareStmt (demo_guest 0 16 []) (bytes_of_string "SELECT") demo_after_open).

Definition demo_stepped : St :=
  Eval vm_compute in snd (execStep (demo_guest 0 16 []) 16 demo_prepared).

Lemma C3_witness :
  execSelectUsers (demo_guest 0 16 []) 5%nat (bytes_of_string "SELECT") demo_after_open
  = (inr [], demo_stepped).
Proof.
  apply (proj2 (proj2 (C3_rows_while_step_is_row (demo_guest 0 16 [])))
           5%nat (bytes_of_string "SELECT") demo_after_open 16 demo_prepared 101).
  - vm_compute. reflexivity.
  - vm_compute. reflexivity.
  - unfold SQLITE_ROW. discriminate.
Defined.

(** ** C4: the status check *)

(** C4: [ensureStatusCodeSuccess p msg] reads the u32 status at [p]; it
    fails exactly when that status is non-zero, with [EngineError status
    msg]; when the status is 0 it succeeds, and in both cases its only
    effect is the logged read (client and machine unchanged).  If [p] is
    out of memory it fails with a memory-access error. *)
Theorem C4_status_check p msg st :
  (forall code,
     memReadUint32Le (mem (mach st)) p = Some code ->
     ensureStatusCodeSuccess p msg st =
     (if code =? 0 then inr tt else inl (EngineError code msg),
      mkSt (cl st) (mach st) (EReadU32 p (Some code) :: trace st))) /\
  (memReadUint32Le (mem (mach st)) p = None ->
   ensureStatusCodeSuccess p msg st =
   (inl (MemoryAccessError "cannot read return code"),
    mkSt (cl st) (mach st) (EReadU32 p None :: trace st))).
Proof.
  unfold ensureStatusCodeSuccess, ReadUint32Le, bind, ret, fail, emit, getMach; simpl.
  split.
  - intros code H. rewrite H. destruct (code =? 0); reflexivity.
  - intros H. rewrite H. reflexivity.
Qed.

Lemma C4_witness :
  ensureStatusCodeSuccess 0 (bytes_of_string "db pointer") demo_exec_mid =
  (inl (EngineError 1 (bytes_of_string "db pointer")),
   mkSt (cl demo_exec_mid) (mach demo_exec_mid)
        (EReadU32 0 (Some 1) :: trace demo_exec_mid)).
Proof.
  apply (proj1 (C4_status_check 0 (bytes_of_string "db pointer") demo_exec_mid) 1).
  vm_compute. reflexivity.
Defined.

(** ** C5: writing a string into guest memory and reading it back *)

Lemma memWrite_length m off val m' :
  memWrite m off val = Some m' -> List.length m' = List.length m.
Proof.
  unfold memWrite, hasSize. intros H.
  destruct (0 <=? off) eqn:H1; [|discriminate].
  destruct (0 <=? Z.of_nat (List.length val)) eqn:H2; [|discriminate].
  destruct (off + Z.of_nat (List.length val) <=? Z.of_nat (List.length m)) eqn:H3;
    [|discriminate].
  simpl in H. inversion H; subst. apply Z.leb_le in H1, H3.
  rewrite !length_app, length_firstn, length_skipn. lia.
Qed.

Lemma memWrite_memRead m off val m' :
  memWrite m off val = Some m' ->
  memRead m' off (Z.of_nat (List.length val)) = Some val.
Proof.
  intros H. pose proof (memWrite_length _ _ _ _ H) as Hlen.
  revert H. unfold memWrite, memRead, hasSize, slice. intros H.
  destruct (0 <=? off) eqn:H1; [|discriminate].
  destruct (0 <=? Z.of_nat (List.length val)) eqn:H2; [|discriminate].
  destruct (off + Z.of_nat (List.length val) <=? Z.of_nat (List.length m)) eqn:H3;
    [|discriminate].
  simpl in H. inversion H; subst. rewrite Hlen, H3. simpl. f_equal.
  apply Z.leb_le in H1, H3.
  rewrite skipn_app, length_firstn.
  replace (Z.to_nat off - Init.Nat.min (Z.to_nat off) (List.length m))%nat with 0%nat
    by lia.
  rewrite skipn_all2 by (rewrite length_firstn; lia).
  simpl. rewrite Nat2Z.id, firstn_app, firstn_all, Nat.sub_diag. simpl.
  apply app_nil_r.
Qed.

(** C5: a successful [allocateString str] returns a pointer and
    [length str], and reading that many bytes at the (u32) pointer in the
    resulting memory gives back exactly [str]. *)
Theorem C5_allocate_roundtrip g str st ptr len st' :
  allocateString g str st = (inr (ptr, len), st') ->
  len = Z.of_nat (List.length str) /\
  memRead (mem (mach st')) (u32 ptr) len = Some str.
Proof.
  intros H. unfold_ops H. split_in H.
  inversion H; subst; simpl. split; [reflexivity|].
  eapply memWrite_memRead. eassumption.
Qed.

Definition demo_alloc_result :=
  Eval vm_compute in allocateString (demo_guest 0 16 []) (bytes_of_string "hi") demo_after_open.

Lemma C5_witness :
  memRead (mem (mach (snd demo_alloc_result))) (u32 128) 2 = Some (bytes_of_string "hi").
Proof.
  apply (proj2 (C5_allocate_roundtrip (demo_guest 0 16 []) (bytes_of_string "hi")
                  demo_after_open 128 2 (snd demo_alloc_result) eq_refl)).
Defined.

(** ** C6: memory accesses out of range are fatal *)

(** A logged memory access that the runtime accepted. *)
Definition access_ok (e : event) : Prop :=
  match e with
  | ERead _ _ a => a <> None
  | EReadU32 _ a => a <> None
  | EWrite _ _ ok => ok = true
  | _ => True
  end.

(** A host operation is safe when each of its successful runs only
    extended the trace with accepted accesses. *)
Definition host_safe {A} (op : M A) : Prop :=
  forall st a st', op st = (inr a, st') ->
  exists new, trace st' = new ++ trace st /\ Forall access_ok new.

Lemma safe_ret {A} (a : A) : host_safe (ret a).
Proof. intros st b st' H. inversion H; subst. exists []. auto. Qed.

Lemma safe_getS : host_safe getS.
Proof. intros st b st' H. inversion H; subst. exists []. auto. Qed.

Lemma safe_putS s : host_safe (putS s).
Proof. intros st b st' H. inversion H; subst. exists []. auto. Qed.

Lemma safe_bind {A B} (m : M A) (k : A -> M B) :
  host_safe m -> (forall a, host_safe (k a)) -> host_safe (bind m k).
Proof.
  intros Hm Hk st b st' H. step_monad; [discriminate |].
  destruct (Hm _ _ _ H0) as (n1 & E1 & F1).
  destruct (Hk _ _ _ _ H) as (n2 & E2 & F2).
  exists (n2 ++ n1). rewrite E2, E1, app_assoc. split; [reflexivity|].
  apply Forall_app. auto.
Qed.

Ltac prefix_of t t0 :=
  lazymatch t with
  | t0 => constr:(@nil event)
  | ?e :: ?r => let p := prefix_of r t0 in constr:(e :: p)
  end.

Ltac finish_safe :=
  match goal with
  | |- exists new, ?t = new ++ ?t0 /\ _ =>
      let p := prefix_of t t0 in exists p
  end;
  split; [reflexivity |];
  repeat (apply Forall_cons; [simpl; first [exact I | congruence] |]);
  apply Forall_nil.

(** Closes [host_safe] for an operation whose runs [split_in] enumerates. *)
Ltac safe_by_cases :=
  let st := fresh "st" in let a := fresh "a" in let st' := fresh "st'" in
  let H := fresh "H" in
  intros st a st' H; unfold_ops H; split_in H; inversion H; subst; simpl;
  finish_safe.

Lemma safe_Call g f args : host_safe (Call g f args).
Proof. safe_by_cases. Qed.

Lemma safe_allocateString g str : host_safe (allocateString g str).
Proof. safe_by_cases. Qed.

Lemma safe_readInt g stmt c : host_safe (readInt g stmt c).
Proof. safe_by_cases. Qed.

Lemma safe_readText g stmt c : host_safe (readText g stmt c).
Proof. safe_by_cases. Qed.

Lemma safe_execStep g stmt : host_safe (execStep g stmt).
Proof. safe_by_cases. Qed.

Lemma safe_newSqlModule_handle g : host_safe (newSqlModule_handle g).
Proof. safe_by_cases. Qed.

Lemma safe_execSql_result g : host_safe (execSql_result g).
Proof. safe_by_cases. Qed.

Lemma safe_prepareStmt_result g : host_safe (prepareStmt_result g).
Proof. safe_by_cases. Qed.

Lemma safe_fail {A} e : host_safe (@fail A e).
Proof. intros st b st' H. discriminate H. Qed.

Create HintDb host_safe_db.
#[local] Hint Resolve safe_ret safe_getS safe_putS safe_fail safe_Call
  safe_allocateString safe_readInt safe_readText safe_execStep
  safe_newSqlModule_handle safe_execSql_result safe_prepareStmt_result
  : host_safe_db.

Ltac safe_compose :=
  repeat (first [solve [auto with host_safe_db] | apply safe_bind];
          [| let x := fresh "x" in
             intros x;
             lazymatch type of x with
             | prod _ _ => destruct x; cbn beta iota
             | _ => idtac
             end]);
  auto with host_safe_db.

Lemma safe_newSqlModule g : host_safe (newSqlModule g).
Proof. unfold newSqlModule, newSqlModule_open. safe_compose. Qed.

Lemma safe_execSql g q : host_safe (execSql g q).
Proof. unfold execSql, execSql_run. safe_compose. Qed.

Lemma safe_prepareStmt g q : host_safe (prepareStmt g q).
Proof. unfold prepareStmt, prepareStmt_run. safe_compose. Qed.

Lemma safe_rowLoop g fuel stmt rc users : host_safe (rowLoop g fuel stmt rc users).
Proof.
  revert rc users. induction fuel as [| fuel IH]; intros rc users; simpl;
    destruct (rc =? SQLITE_ROW); auto with host_safe_db.
  safe_compose.
Qed.

Lemma safe_execSelectUsers g fuel q : host_safe (execSelectUsers g fuel q).
Proof.
  unfold execSelectUsers. apply safe_bind; [apply safe_prepareStmt |]. intros stmt.
  apply safe_bind; [apply safe_execStep |]. intros rc. apply safe_rowLoop.
Qed.

Lemma memRead_in_bounds m p n raw :
  memRead m p n = Some raw ->
  0 <= p /\ 0 <= n /\ p + n <= Z.of_nat (List.length m) /\ raw = slice m p n.
Proof.
  unfold memRead, hasSize. intros H.
  destruct (0 <=? p) eqn:H1; [|discriminate].
  destruct (0 <=? n) eqn:H2; [|discriminate].
  destruct (p + n <=? Z.of_nat (List.length m)) eqn:H3; [|discriminate].
  simpl in H. inversion H; subst. apply Z.leb_le in H1, H2, H3. auto.
Qed.

(** C6: a byte-range read that extends past the memory size is refused
    (no truncated or zero-filled data: an accepted read returns exactly the
    [n] bytes of the range); when the text range of a text column is
    refused, [readText] fails with a memory-access error; and every
    successful run of the client's operations (construction/open, execute,
    query) performed only accesses that the runtime accepted, so an
    out-of-range access always ends the operation in a failure. *)
Theorem C6_out_of_range_fatal :
  (forall m p n,
     0 <= p -> 0 <= n -> Z.of_nat (List.length m) < p + n -> memRead m p n = None) /\
  (forall m p n raw,
     memRead m p n = Some raw ->
     p + n <= Z.of_nat (List.length m) /\ Z.of_nat (List.length raw) = n /\
     raw = slice m p n) /\
  (forall g stmt col st r st' p n t,
     readText g stmt col st = (r, st') -> trace st' = ERead p n None :: t ->
     r = inl (MemoryAccessError "failed to read text")) /\
  (forall g, host_safe (newSqlModule g)) /\
  (forall g q, host_safe (execSql g q)) /\
  (forall g fuel q, host_safe (execSelectUsers g fuel q)).
Proof.
  split; [| split; [| split; [| split; [| split]]]].
  - intros m p n Hp Hn Hgt. unfold memRead, hasSize.
    replace (p + n <=? Z.of_nat (List.length m)) with false
      by (symmetry; apply Z.leb_gt; lia).
    rewrite Bool.andb_false_r. reflexivity.
  - intros m p n raw H. pose proof (memRead_length _ _ _ _ H).
    apply memRead_in_bounds in H. intuition.
  - intros g stmt col st r st' p n t H Ht. unfold_ops H.
    split_in H; inversion H; subst; simpl in Ht; try discriminate Ht; reflexivity.
  - exact safe_newSqlModule.
  - exact safe_execSql.
  - exact safe_execSelectUsers.
Qed.

(** A guest whose text column reports the range [250, 350), past its
    256-byte memory. *)
Definition demo_bad_text_guest : Guest :=
  fun name =>
  if String.eqb name "sqlite3_column_text"
  then Some (fun _ m => Ret [0] (mkMach (mem m) [250; 100; 0]))
  else demo_guest 0 16 [] name.

Definition demo_bad_text_result :=
  Eval vm_compute in readText demo_bad_text_guest 16 1 demo_after_open.

Lemma C6_witness :
  fst demo_bad_text_result = inl (MemoryAccessError "failed to read text").
Proof.
  apply (proj1 (proj2 (proj2 C6_out_of_range_fatal)) demo_bad_text_guest 16 1
           demo_after_open (fst demo_bad_text_result) (snd demo_bad_text_result)
           250 100 (tl (trace (snd demo_bad_text_result)))).
  - reflexivity.
  - vm_compute. reflexivity.
Defined.

(** ** C7: integer columns *)

Lemma go_int_u64 x : u64 (go_int x) = u64 x.
Proof.
  unfold go_int, u64. destruct (x mod 2 ^ 64 <? 2 ^ 63) eqn:E.
  - apply Z.mod_mod. lia.
  - rewrite Zminus_mod, Z.mod_mod, Z_mod_same_full, Z.sub_0_r by lia.
    rewrite !Z.mod_mod; lia.
Qed.

Lemma go_int_small x : 0 <= x < 2 ^ 63 -> go_int x = x.
Proof.
  intros H. unfold go_int, u64. rewrite Z.mod_small by lia.
  replace (x <? 2 ^ 63) with true by (symmetry; apply Z.ltb_lt; lia). reflexivity.
Qed.

(** C7: a successful [readInt stmt col] makes exactly one call, to the
    integer-column export with arguments [stmt; col], and nothing else (no
    envelope accessor call, no memory access, client unchanged); the value
    it returns is that call's first raw result [r] read as a Go [int]:
    the same 64-bit value ([u64 v = r]), equal to [r] whenever [r < 2^63]. *)
Theorem C7_readInt_raw g stmt col st v st' :
  readInt g stmt col st = (inr v, st') ->
  exists n r rs,
    columnInt (cl st) = Some n /\
    trace st' = ECall n [stmt; col] (r :: rs) :: trace st /\
    cl st' = cl st /\
    u64 v = r /\ (r < 2 ^ 63 -> v = r).
Proof.
  intros H. unfold_ops H. split_in H. inversion H; subst; simpl.
  destruct results as [| r0 rs0]; [discriminate |]. simpl in Heql.
  injection Heql as Hz Hl. subst.
  do 3 eexists. split; [reflexivity |]. split; [reflexivity |]. split; [reflexivity |].
  split.
  - rewrite go_int_u64. unfold u64. apply Z.mod_mod. lia.
  - intros Hlt. apply go_int_small. unfold u64 in *.
    pose proof (Z.mod_pos_bound r0 (2 ^ 64)). lia.
Qed.

(** The opened client, with three rows left in the guest. *)
Definition demo_rows3 : St :=
  mkSt (cl demo_after_open) (mkMach (mem (mach demo_after_open)) [0; 0; 3])
       (trace demo_after_open).

Definition demo_readInt_result :=
  Eval vm_compute in readInt (demo_guest 0 16 []) 16 0 demo_rows3.

Lemma C7_witness : fst demo_readInt_result = inr 3.
Proof.
  destruct (C7_readInt_raw (demo_guest 0 16 []) 16 0 demo_rows3 3
              (snd demo_readInt_result))
    as (n & r & rs & _ & _ & _ & _ & _).
  - vm_compute. reflexivity.
  - reflexivity.
Defined.

(** ** C8: failing calls *)

(** C8: calling a function the module does not export ([ExportedFunction]
    gave nil) fails with a call error, and so does a call that traps; the
    failure is final for the operation: whatever the operation would do
    next is skipped (no retry, the error and state are passed up unchanged);
    e.g. a trapping step call makes [execStep] fail with that error. *)
Theorem C8_call_errors g :
  (forall name args st,
     g name = None ->
     Call g (ExportedFunction g name) args st =
     (inl (CallError NilFunction),
      mkSt (cl st) (mach st) (ENilCall args :: trace st))) /\
  (forall name fn args st,
     g name = Some fn -> fn args (mach st) = Trap ->
     Call g (ExportedFunction g name) args st =
     (inl (CallError (Trapped name)),
      mkSt (cl st) (mach st) (ETrap name args :: trace st))) /\
  (forall A f args (k : list Z -> M A) st e st1,
     Call g f args st = (inl e, st1) ->
     bind (Call g f args) k st = (inl e, st1)) /\
  (forall stmt st n fn,
     step (cl st) = Some n -> g n = Some fn -> fn [stmt] (mach st) = Trap ->
     execStep g stmt st =
     (inl (CallError (Trapped n)),
      mkSt (cl st) (mach st) (ETrap n [stmt] :: trace st))).
Proof.
  split; [| split; [| split]].
  - intros name args st H. unfold ExportedFunction. rewrite H. reflexivity.
  - intros name fn args st H Ht. unfold ExportedFunction, Call. rewrite H.
    unfold bind, getMach, emit, fail. simpl. rewrite H, Ht. reflexivity.
  - intros A f args k st e st1 H. apply bind_inl. exact H.
  - intros stmt st n fn Hs Hg Ht.
    unfold execStep, Call, bind, getS, getMach, emit, fail. simpl.
    rewrite Hs, Hg. simpl. rewrite Ht. reflexivity.
Qed.

(** A guest whose step export traps. *)
Definition demo_trap_guest : Guest :=
  fun name =>
  if String.eqb name "sqlite3_step" then Some (fun _ _ => Trap)
  else demo_guest 0 16 [] name.

Lemma C8_witness :
  fst (execStep demo_trap_guest 16 demo_after_open)
  = inl (CallError (Trapped "sqlite3_step")).
Proof.
  rewrite (proj2 (proj2 (proj2 (C8_call_errors demo_trap_guest)))
             16 demo_after_open "sqlite3_step"%string (fun _ _ => Trap)).
  - reflexivity.
  - vm_compute. reflexivity.
  - reflexivity.
  - reflexivity.
Defined.

(** ** C9: a zero statement handle is rejected *)

(** C9: when prepare's envelope reports success but the statement handle
    read at envelope base + 4 is 0, the query fails (the panic "failed to
    read prepared statement") right after that read: no step call is made. *)
Theorem C9_zero_stmt_rejected g fuel q st st1 n fn rs0 m B rs :
  prepareStmt_run g q st = (inr tt, st1) ->
  getResultPtr (cl st1) = Some n -> g n = Some fn ->
  fn [] (mach st1) = Ret rs0 m -> map u64 rs0 = B :: rs ->
  memReadUint32Le (mem m) (u32 B) = Some 0 ->
  memReadUint32Le (mem m) (u32 (u64 (B + 4))) = Some 0 ->
  execSelectUsers g fuel q st =
  (inl (BadStatement (u64 (B + 4))),
   mkSt (cl st1) m
     (EReadU32 (u32 (u64 (B + 4))) (Some 0) :: EReadU32 (u32 B) (Some 0)
      :: ECall n [] (B :: rs) :: trace st1)).
Proof.
  intros Hrun Hn Hg Hfn Hmap Hst Hh.
  unfold execSelectUsers, prepareStmt.
  unfold bind at 1. unfold bind at 1. rewrite Hrun.
  unfold prepareStmt_result, ensureStatusCodeSuccess, Call, res0, ReadUint32Le,
    bind, ret, fail, getS, emit, getMach, putMach; simpl.
  rewrite Hn, Hg. simpl. rewrite Hfn. simpl. rewrite Hmap. simpl.
  rewrite Hst. simpl. rewrite Hh. reflexivity.
Qed.

Definition demo_zero_guest : Guest := demo_guest 0 0 [].

Definition demo_zero_mid : St :=
  Eval vm_compute in
    snd (prepareStmt_run demo_zero_guest (bytes_of_string "SELECT") demo_after_open).

Lemma C9_witness :
  fst (execSelectUsers demo_zero_guest 5%nat (bytes_of_string "SELECT") demo_after_open)
  = inl (BadStatement 4).
Proof.
  rewrite (C9_zero_stmt_rejected demo_zero_guest 5%nat (bytes_of_string "SELECT")
             demo_after_open demo_zero_mid "get_result_ptr"%string
             (demo_fn demo_zero_guest "get_result_ptr") [0] (mach demo_zero_mid) 0 []).
  all: try (vm_compute; reflexivity).
Defined.

(** ** C10: the client struct after construction *)

(** The function references as [newSqlModule] binds them. *)
Definition wf_client (g : Guest) (s : sqliteModule) : Prop :=
  open s = ExportedFunction g "sqlite3_open_v2" /\
  exec s = ExportedFunction g "sqlite3_exec" /\
  getResultPtr s = ExportedFunction g "get_result_ptr" /\
  getResultSize s = ExportedFunction g "get_result_size" /\
  prepare s = ExportedFunction g "sqlite3_prepare_v2" /\
  step s = ExportedFunction g "sqlite3_step" /\
  columnInt s = ExportedFunction g "sqlite3_column_int64" /\
  columnText s = ExportedFunction g "sqlite3_column_text" /\
  alloc s = ExportedFunction g "allocate".

(** A call event to the exec or prepare export passes the database handle
    of [s] as its first argument. *)
Definition uses_handle (s : sqliteModule) (e : event) : Prop :=
  match e with
  | ECall n args _ | ETrap n args =>
      exec s = Some n \/ prepare s = Some n -> hd_error args = Some (dbHandle s)
  | _ => True
  end.

(** Every run of [op] from a properly bound client, failing or not, leaves
    the client struct as it was and only adds events that use its handle. *)
Definition frame_ok (g : Guest) {A} (op : M A) : Prop :=
  forall st r st', wf_client g (cl st) -> op st = (r, st') ->
  cl st' = cl st /\
  exists new, trace st' = new ++ trace st /\ Forall (uses_handle (cl st)) new.

Lemma ExportedFunction_Some g x n : ExportedFunction g x = Some n -> n = x.
Proof. unfold ExportedFunction. destruct (g x); congruence. Qed.

Lemma frame_bind g {A B} (m : M A) (k : A -> M B) :
  frame_ok g m -> (forall a, frame_ok g (k a)) -> frame_ok g (bind m k).
Proof.
  intros Hm Hk st r st' Hwf H. step_monad.
  - destruct (Hm _ _ _ Hwf H) as (E & new & T & F). eauto.
  - destruct (Hm _ _ _ Hwf H0) as (E1 & n1 & T1 & F1).
    rewrite <- E1 in Hwf.
    destruct (Hk _ _ _ _ Hwf H) as (E2 & n2 & T2 & F2).
    rewrite E1 in E2, F2. split; [congruence |].
    exists (n2 ++ n1). rewrite T2, T1, app_assoc. split; [reflexivity |].
    apply Forall_app. auto.
Qed.

(** A call event of any other export is not an exec or prepare call. *)
Ltac distinct_exports Hwf :=
  let W := fresh "W" in
  destruct Hwf as (W & W1 & W2 & W3 & W4 & W5 & W6 & W7 & W8);
  rewrite ?W, ?W1, ?W2, ?W3, ?W4, ?W5, ?W6, ?W7, ?W8 in *;
  repeat match goal with
  | H : ExportedFunction _ _ = Some _ |- _ => apply ExportedFunction_Some in H
  end;
  subst; congruence.

Ltac frame_by_cases :=
  let st := fresh "st" in let r := fresh "r" in let st' := fresh "st'" in
  let Hwf := fresh "Hwf" in let H := fresh "H" in
  intros st r st' Hwf H;
  unfold execSql_run, prepareStmt_run in H; unfold_ops H; split_in H;
  inversion H; subst; simpl; (split; [reflexivity |]);
  match goal with
  | |- exists new, ?t = new ++ ?t0 /\ _ =>
      let p := prefix_of t t0 in exists p
  end;
  (split; [reflexivity |]);
  repeat (apply Forall_cons;
          [simpl; first [exact I | intros [?E | ?E]; first [reflexivity | distinct_exports Hwf]] |]);
  apply Forall_nil.

Lemma frame_allocateString g str : frame_ok g (allocateString g str).
Proof. frame_by_cases. Qed.

Lemma frame_readInt g stmt c : frame_ok g (readInt g stmt c).
Proof. frame_by_cases. Qed.

Lemma frame_readText g stmt c : frame_ok g (readText g stmt c).
Proof. frame_by_cases. Qed.

Lemma frame_execStep g stmt : frame_ok g (execStep g stmt).
Proof. frame_by_cases. Qed.

Lemma frame_execSql_run g q : frame_ok g (execSql_run g q).
Proof. frame_by_cases. Qed.

Lemma frame_execSql_result g : frame_ok g (execSql_result g).
Proof. frame_by_cases. Qed.

Lemma frame_prepareStmt_run g q : frame_ok g (prepareStmt_run g q).
Proof. frame_by_cases. Qed.

Lemma frame_prepareStmt_result g : frame_ok g (prepareStmt_result g).
Proof. frame_by_cases. Qed.

Lemma frame_ret g {A} (a : A) : frame_ok g (ret a).
Proof. intros st r st' _ H. inversion H; subst. split; [reflexivity |]. exists []. auto. Qed.

Lemma frame_fail g {A} e : frame_ok g (@fail A e).
Proof. intros st r st' _ H. inversion H; subst. split; [reflexivity |]. exists []. auto. Qed.

Lemma frame_rowLoop g fuel stmt rc users : frame_ok g (rowLoop g fuel stmt rc users).
Proof.
  revert rc users. induction fuel as [| fuel IH]; intros rc users; simpl;
    destruct (rc =? SQLITE_ROW); try apply frame_ret; try apply frame_fail.
  apply frame_bind; [apply frame_readInt |]. intros id.
  apply frame_bind; [apply frame_readText |]. intros name.
  apply frame_bind; [apply frame_execStep |]. intros rc'. apply IH.
Qed.

Lemma newSqlModule_open_client g st st1 :
  newSqlModule_open g st = (inr tt, st1) -> cl st1 = bound_client g.
Proof.
  intros H. unfold newSqlModule_open in H.
  unfold_ops H. split_in H. inversion H. reflexivity.
Qed.

(** C10: construction binds the function references as [newSqlModule]
    does and keeps the handle it read; afterwards no operation (execute,
    query, step, integer or text column read, string allocation) changes
    the client struct, handle and function references included, whether it
    succeeds or fails, and every exec or prepare call any of them makes
    passes that struct's database handle as its first argument. *)
Theorem C10_client_frame g :
  (forall st s st',
     newSqlModule g st = (inr s, st') -> cl st' = s /\ wf_client g s) /\
  (forall q, frame_ok g (execSql g q)) /\
  (forall fuel q, frame_ok g (execSelectUsers g fuel q)) /\
  (forall stmt, frame_ok g (execStep g stmt)) /\
  (forall stmt c, frame_ok g (readInt g stmt c)) /\
  (forall stmt c, frame_ok g (readText g stmt c)) /\
  (forall str, frame_ok g (allocateString g str)).
Proof.
  split; [| split; [| split; [| split; [| split; [| split]]]]].
  - intros st s st' H. unfold newSqlModule in H. step_monad; [discriminate |].
    destruct x. apply newSqlModule_open_client in H0.
    unfold_ops H. split_in H. inversion H; subst; simpl.
    split; [reflexivity |]. rewrite H0. unfold wf_client. simpl. tauto.
  - intros q. unfold execSql. apply frame_bind; [apply frame_execSql_run |].
    intros _. apply frame_execSql_result.
  - intros fuel q. unfold execSelectUsers, prepareStmt.
    apply frame_bind.
    + apply frame_bind; [apply frame_prepareStmt_run |]. intros _.
      apply frame_prepareStmt_result.
    + intros stmt. apply frame_bind; [apply frame_execStep |]. intros rc.
      apply frame_rowLoop.
  - apply frame_execStep.
  - apply frame_readInt.
  - apply frame_readText.
  - apply frame_allocateString.
Qed.

Lemma demo_after_open_bound : wf_client (demo_guest 0 16 []) (cl demo_after_open).
Proof. repeat split. Qed.

Definition demo_exec_run :=
  Eval vm_compute in
    execSql (demo_guest 0 16 []) (bytes_of_string "CREATE") demo_after_open.

Lemma C10_witness :
  cl (snd demo_exec_run) = cl demo_after_open /\
  exists new, trace (snd demo_exec_run) = new ++ trace demo_after_open /\
              Forall (uses_handle (cl demo_after_open)) new.
Proof.
  apply (proj1 (proj2 (C10_client_frame (demo_guest 0 16 [])))
           (bytes_of_string "CREATE") demo_after_open (fst demo_exec_run)).
  - exact demo_after_open_bound.
  - vm_compute. reflexivity.
Defined.

(** * Further properties of the host code *)

Lemma allocateString_cl g str st r st' :
  allocateString g str st = (r, st') -> cl st' = cl st.
Proof. intros H. unfold_ops H. split_in H; inversion H; reflexivity. Qed.

Lemma allocateString_written g str st ptr len st' :
  allocateString g str st = (inr (ptr, len), st') ->
  len = Z.of_nat (List.length str) /\
  memRead (mem (mach st')) (u32 ptr) len = Some str.
Proof.
  intros H. unfold_ops H. split_in H.
  inversion H; subst; simpl. split; [reflexivity |].
  eapply memWrite_memRead. eassumption.
Qed.

(** ** The statement text is in guest memory when exec / prepare runs *)

(** [execSql] either fails while allocating, or calls the exec export with
    [[dbHandle; p; len(query); 0; 0]] on a machine whose memory holds the
    query bytes at [(uint32(p), len(query))]. *)
Theorem execSql_run_query_in_memory g q st r st' :
  execSql_run g q st = (r, st') ->
  (exists e, r = inl e /\ allocateString g q st = (inl e, st')) \/
  (exists p st1,
     allocateString g q st = (inr (p, Z.of_nat (List.length q)), st1) /\
     cl st1 = cl st /\
     memRead (mem (mach st1)) (u32 p) (Z.of_nat (List.length q)) = Some q /\
     bind (Call g (exec (cl st)) [dbHandle (cl st); p; Z.of_nat (List.length q); 0; 0])
          (fun _ => ret tt) st1 = (r, st')).
Proof.
  intros H. unfold execSql_run in H. step_monad.
  - left. eauto.
  - right. destruct x as [p n].
    pose proof (allocateString_cl _ _ _ _ _ H0) as Hcl.
    destruct (allocateString_written _ _ _ _ _ _ H0) as [-> Hm].
    exists p, x0. repeat split; auto.
    rewrite <- Hcl. exact H.
Qed.

(** The same for the prepare call of [execSelectUsers], with arguments
    [[dbHandle; p; len(query)]]. *)
Theorem prepareStmt_run_query_in_memory g q st r st' :
  prepareStmt_run g q st = (r, st') ->
  (exists e, r = inl e /\ allocateString g q st = (inl e, st')) \/
  (exists p st1,
     allocateString g q st = (inr (p, Z.of_nat (List.length q)), st1) /\
     cl st1 = cl st /\
     memRead (mem (mach st1)) (u32 p) (Z.of_nat (List.length q)) = Some q /\
     bind (Call g (prepare (cl st)) [dbHandle (cl st); p; Z.of_nat (List.length q)])
          (fun _ => ret tt) st1 = (r, st')).
Proof.
  intros H. unfold prepareStmt_run in H. step_monad.
  - left. eauto.
  - right. destruct x as [p n].
    pose proof (allocateString_cl _ _ _ _ _ H0) as Hcl.
    destruct (allocateString_written _ _ _ _ _ _ H0) as [-> Hm].
    exists p, x0. repeat split; auto.
    rewrite <- Hcl. exact H.
Qed.

Definition demo_exec_run_mid :=
  Eval vm_compute in
    execSql_run (demo_guest 0 16 []) (bytes_of_string "CREATE") demo_after_open.

Lemma execSql_run_query_in_memory_witness :
  exists p st1,
    allocateString (demo_guest 0 16 []) (bytes_of_string "CREATE") demo_after_open
      = (inr (p, 6), st1) /\
    memRead (mem (mach st1)) (u32 p) 6 = Some (bytes_of_string "CREATE").
Proof.
  destruct (execSql_run_query_in_memory (demo_guest 0 16 []) (bytes_of_string "CREATE")
              demo_after_open (fst demo_exec_run_mid) (snd demo_exec_run_mid))
    as [(e & He & _) | (p & st1 & H1 & _ & H3 & _)].
  - vm_compute. reflexivity.
  - discriminate He.
  - exists p, st1. split; assumption.
Defined.

Definition demo_prepare_run_mid :=
  Eval vm_compute in
    prepareStmt_run (demo_guest 0 16 []) (bytes_of_string "SELECT") demo_after_open.

Lemma prepareStmt_run_query_in_memory_witness :
  exists p st1,
    allocateString (demo_guest 0 16 []) (bytes_of_string "SELECT") demo_after_open
      = (inr (p, 6), st1) /\
    memRead (mem (mach st1)) (u32 p) 6 = Some (bytes_of_string "SELECT").
Proof.
  destruct (prepareStmt_run_query_in_memory (demo_guest 0 16 []) (bytes_of_string "SELECT")
              demo_after_open (fst demo_prepare_run_mid) (snd demo_prepare_run_mid))
    as [(e & He & _) | (p & st1 & H1 & _ & H3 & _)].
  - vm_compute. reflexivity.
  - discriminate He.
  - exists p, st1. split; assumption.
Defined.

(** ** The host write of [allocateString] touches only its own range *)

Lemma memWrite_frame m off val m' :
  memWrite m off val = Some m' ->
  List.length m' = List.length m /\
  forall i, (i < Z.to_nat off \/ Z.to_nat off + List.length val <= i)%nat ->
            nth_error m' i = nth_error m i.
Proof.
  intros H. pose proof (memWrite_length _ _ _ _ H) as Hlen. split; [exact Hlen |].
  revert H. unfold memWrite, hasSize. intros H.
  destruct (0 <=? off) eqn:H1; [|discriminate].
  destruct (0 <=? Z.of_nat (List.length val)) eqn:H2; [|discriminate].
  destruct (off + Z.of_nat (List.length val) <=? Z.of_nat (List.length m)) eqn:H3;
    [|discriminate].
  simpl in H. inversion H; subst. apply Z.leb_le in H1, H3.
  intros i [Hi | Hi].
  - rewrite nth_error_app1 by (rewrite length_firstn; lia).
    rewrite nth_error_firstn. destruct (Nat.ltb_spec i (Z.to_nat off)); [reflexivity | lia].
  - rewrite nth_error_app2 by (rewrite length_firstn; lia).
    rewrite length_firstn, nth_error_app2 by lia.
    rewrite nth_error_skipn. f_equal. lia.
Qed.

(** [allocateString] on success: the alloc export was called with
    [[len(str); 0]] and its first result is the returned pointer [p]; the
    host then wrote [str] at [uint32(p)] and did nothing else.  Outside
    [[uint32(p), uint32(p) + len(str))] the memory is byte for byte the one
    the alloc call left, the size and globals are unchanged, and the trace
    records exactly the call and the successful write. *)
Theorem allocateString_write_frame g str st p len st' :
  allocateString g str st = (inr (p, len), st') ->
  exists n fn rs0 m rs,
    alloc (cl st) = Some n /\ g n = Some fn /\
    fn [len; 0] (mach st) = Ret rs0 m /\ map u64 rs0 = p :: rs /\
    len = Z.of_nat (List.length str) /\
    cl st' = cl st /\
    trace st' = EWrite (u32 p) str true :: ECall n [len; 0] (p :: rs) :: trace st /\
    globals (mach st') = globals m /\
    List.length (mem (mach st')) = List.length (mem m) /\
    (forall i, (i < Z.to_nat (u32 p) \/ Z.to_nat (u32 p) + List.length str <= i)%nat ->
               nth_error (mem (mach st')) i = nth_error (mem m) i).
Proof.
  intros H. unfold_ops H. split_in H. inversion H; subst; simpl.
  match goal with
  | Hw : memWrite _ _ _ = Some _ |- _ => destruct (memWrite_frame _ _ _ _ Hw) as [Hl Hf]
  end.
  exists s, o, results, m, l.
  repeat (split; [first [eassumption | reflexivity] |]).
  exact Hf.
Qed.

Definition demo_alloc_run :=
  Eval vm_compute in
    allocateString (demo_guest 0 16 []) (bytes_of_string "users") demo_after_open.

Lemma allocateString_write_frame_witness :
  exists n fn rs0 m rs,
    alloc (cl demo_after_open) = Some n /\
    fn [5; 0] (mach demo_after_open) = Ret rs0 m /\ map u64 rs0 = 128 :: rs /\
    (forall i, (i < 128 \/ 133 <= i)%nat ->
               nth_error (mem (mach (snd demo_alloc_run))) i = nth_error (mem m) i).
Proof.
  destruct (allocateString_write_frame (demo_guest 0 16 []) (bytes_of_string "users")
              demo_after_open 128 5 (snd demo_alloc_run))
    as (n & fn & rs0 & m & rs & H1 & _ & H3 & H4 & _ & _ & _ & _ & _ & H9).
  - vm_compute. reflexivity.
  - exists n, fn, rs0, m, rs. split; [exact H1 |]. split; [exact H3 |].
    split; [exact H4 |]. intros i Hi. apply H9. vm_compute. exact Hi.
Defined.

(** Once the alloc export has returned [p :: _], [allocateString] succeeds
    with [(p, len(str))] exactly when [[uint32(p), uint32(p) + len(str))]
    lies inside the memory that call left; otherwise it fails with the
    "failed to write name" panic.  Nothing the guest does is consulted
    after the call. *)
Theorem allocateString_outcome g str st n fn rs0 m p rs :
  alloc (cl st) = Some n -> g n = Some fn ->
  fn [Z.of_nat (List.length str); 0] (mach st) = Ret rs0 m ->
  map u64 rs0 = p :: rs ->
  fst (allocateString g str st) =
  if hasSize (mem m) (u32 p) (Z.of_nat (List.length str))
  then inr (p, Z.of_nat (List.length str)) else inl AllocationError.
Proof.
  intros Hn Hg Hfn Hmap.
  unfold allocateString, Call, res0, Write, bind, ret, fail, getS, emit, getMach,
    putMach; simpl.
  rewrite Hn, Hg. simpl. rewrite Hfn. simpl. rewrite Hmap. simpl.
  unfold memWrite. destruct (hasSize (mem m) (u32 p) (Z.of_nat (List.length str)));
    reflexivity.
Qed.

Lemma allocateString_outcome_witness :
  fst (allocateString (demo_guest 0 16 []) (repeat 1 200) demo_after_open)
  = inl AllocationError.
Proof.
  rewrite (allocateString_outcome (demo_guest 0 16 []) (repeat 1 200) demo_after_open
             "allocate"%string (demo_fn (demo_guest 0 16 []) "allocate") [128]
             (mach demo_after_open) 128 []).
  all: try (vm_compute; reflexivity).
Defined.

(** ** The text column protocol *)

(** A successful [readText] makes exactly four observable steps: the
    column-text call with [[stmt; col]], the result-pointer call returning
    [p], the result-size call returning [n], and the read of
    [(uint32(p), uint32(n))], whose answer is the returned bytes, of length
    [uint32(n)]; machine changes come from the guest calls only. *)
Theorem readText_protocol g stmt col st raw st' :
  readText g stmt col st = (inr raw, st') ->
  exists nt np ns rt p rp n rn,
    columnText (cl st) = Some nt /\ getResultPtr (cl st) = Some np /\
    getResultSize (cl st) = Some ns /\
    cl st' = cl st /\
    trace st' = ERead (u32 p) (u32 n) (Some raw) :: ECall ns [] (n :: rn)
                :: ECall np [] (p :: rp) :: ECall nt [stmt; col] rt :: trace st /\
    memRead (mem (mach st')) (u32 p) (u32 n) = Some raw /\
    Z.of_nat (List.length raw) = u32 n.
Proof.
  intros H. unfold_ops H. split_in H. inversion H; subst; simpl.
  do 8 eexists. repeat split; eauto.
  match goal with
  | Hr : memRead _ _ _ = Some _ |- _ => exact (memRead_length _ _ _ _ Hr)
  end.
Qed.

Definition demo_text_run :=
  Eval vm_compute in readText (demo_guest 0 16 []) 16 1 demo_stepped.

Lemma readText_protocol_witness :
  exists p n, memRead (mem (mach (snd demo_text_run))) (u32 p) (u32 n)
              = Some (bytes_of_string "go") /\ u32 n = 2.
Proof.
  destruct (readText_protocol (demo_guest 0 16 []) 16 1 demo_stepped
              (bytes_of_string "go") (snd demo_text_run))
    as (nt & np & ns & rt & p & rp & n & rn & _ & _ & _ & _ & _ & H6 & H7).
  - vm_compute. reflexivity.
  - exists p, n. split; [exact H6 | rewrite <- H7; reflexivity].
Defined.

(** ** Decoding the result envelopes *)





(** When the envelope announces a non-empty message whose range is not in
    memory, [execSql] fails with "cannot read err msg" without ever reading
    the status word: the outcome does not depend on whether the statement
    succeeded. *)
Theorem execSql_result_msg_unreadable g st n fn rs0 m B rs P S :
  getResultPtr (cl st) = Some n -> g n = Some fn ->
  fn [] (mach st) = Ret rs0 m -> map u64 rs0 = B :: rs ->
  memReadUint32Le (mem m) (u32 (u64 (B + 4))) = Some P ->
  memReadUint32Le (mem m) (u32 (u64 (B + 8))) = Some S ->
  S <> 0 -> memRead (mem m) P S = None ->
  execSql_result g st =
  (inl (MemoryAccessError "cannot read err msg"),
   mkSt (cl st) m
     (ERead P S None :: EReadU32 (u32 (u64 (B + 8))) (Some S)
      :: EReadU32 (u32 (u64 (B + 4))) (Some P) :: ECall n [] (B :: rs) :: trace st)).
Proof.
  intros Hn Hg Hfn Hmap HP HS HS0 Hr.
  unfold execSql_result, Call, res0, Read, ReadUint32Le, bind, ret, fail, getS, emit,
    getMach, putMach; simpl.
  rewrite Hn, Hg. simpl. rewrite Hfn. simpl. rewrite Hmap. simpl.
  rewrite HP. simpl. rewrite HS. simpl.
  apply Z.eqb_neq in HS0. rewrite HS0. simpl. rewrite Hr. reflexivity.
Qed.

(** On the concrete guest with status 0 and a 200-byte message that does
    not fit at 64 in the 256-byte memory, the successful statement still
    fails. *)
Definition demo_long_guest : Guest := demo_guest 0 16 (repeat 1 200).

Definition demo_long_mid : St :=
  Eval vm_compute in
    snd (execSql_run demo_long_guest (bytes_of_string "INSERT") demo_after_open).

Definition demo_long_after_ptr : Mach :=
  Eval vm_compute in
    match demo_fn demo_long_guest "get_result_ptr" [] (mach demo_long_mid) with
    | Ret _ m => m | Trap => mach demo_long_mid
    end.

Lemma execSql_result_msg_unreadable_witness :
  memReadUint32Le (mem (mach demo_long_mid)) 0 = Some 0 /\
  fst (execSql_result demo_long_guest demo_long_mid)
  = inl (MemoryAccessError "cannot read err msg").
Proof.
  split; [vm_compute; reflexivity |].
  rewrite (execSql_result_msg_unreadable demo_long_guest demo_long_mid
             "get_result_ptr"%string (demo_fn demo_long_guest "get_result_ptr") [0]
             demo_long_after_ptr 0 [] 64 200).
  all: try (vm_compute; reflexivity).
  discriminate.
Defined.

(** A non-zero status in the open envelope stops [newSqlModule] with the
    "db pointer" error right after the status read: the handle field is
    never read and the client keeps the handle it had. *)
Theorem newSqlModule_handle_status_error g st n fn rs0 m B rs code :
  getResultPtr (cl st) = Some n -> g n = Some fn ->
  fn [] (mach st) = Ret rs0 m -> map u64 rs0 = B :: rs ->
  memReadUint32Le (mem m) (u32 B) = Some code -> code <> 0 ->
  newSqlModule_handle g st =
  (inl (EngineError code (bytes_of_string "db pointer")),
   mkSt (cl st) m (EReadU32 (u32 B) (Some code) :: ECall n [] (B :: rs) :: trace st)).
Proof.
  intros Hn Hg Hfn Hmap Hc Hc0.
  unfold newSqlModule_handle, ensureStatusCodeSuccess, Call, res0, ReadUint32Le,
    bind, ret, fail, getS, emit, getMach, putMach; simpl.
  rewrite Hn, Hg. simpl. rewrite Hfn. simpl. rewrite Hmap. simpl. rewrite Hc. simpl.
  apply Z.eqb_neq in Hc0. rewrite Hc0. reflexivity.
Qed.

Definition demo_open_fail_mid : St :=
  Eval vm_compute in snd (newSqlModule_open (demo_guest 21 16 []) (demo_state 0)).

Lemma newSqlModule_handle_status_error_witness :
  fst (newSqlModule (demo_guest 21 16 []) (demo_state 0))
  = inl (EngineError 21 (bytes_of_string "db pointer")).
Proof.
  unfold newSqlModule. rewrite (bind_inr _ _ _ tt demo_open_fail_mid)
    by (vm_compute; reflexivity).
  rewrite (newSqlModule_handle_status_error (demo_guest 21 16 []) demo_open_fail_mid
             "get_result_ptr"%string (demo_fn (demo_guest 21 16 []) "get_result_ptr") [0]
             (mach demo_open_fail_mid) 0 [] 21).
  all: try (vm_compute; reflexivity).
  discriminate.
Defined.

(** Likewise a non-zero status in the prepare envelope stops the query
    with the "failed to prepare" error after the status read; the
    statement handle is not read and no step call is made. *)
Theorem prepareStmt_status_error g fuel q st st1 n fn rs0 m B rs code :
  prepareStmt_run g q st = (inr tt, st1) ->
  getResultPtr (cl st1) = Some n -> g n = Some fn ->
  fn [] (mach st1) = Ret rs0 m -> map u64 rs0 = B :: rs ->
  memReadUint32Le (mem m) (u32 B) = Some code -> code <> 0 ->
  execSelectUsers g fuel q st =
  (inl (EngineError code (bytes_of_string "failed to prepare")),
   mkSt (cl st1) m (EReadU32 (u32 B) (Some code) :: ECall n [] (B :: rs) :: trace st1)).
Proof.
  intros Hrun Hn Hg Hfn Hmap Hc Hc0.
  unfold execSelectUsers, prepareStmt.
  unfold bind at 1. unfold bind at 1. rewrite Hrun.
  unfold prepareStmt_result, ensureStatusCodeSuccess, Call, res0, ReadUint32Le,
    bind, ret, fail, getS, emit, getMach, putMach; simpl.
  rewrite Hn, Hg. simpl. rewrite Hfn. simpl. rewrite Hmap. simpl. rewrite Hc. simpl.
  apply Z.eqb_neq in Hc0. rewrite Hc0. reflexivity.
Qed.

Definition demo_prepare_fail_mid : St :=
  Eval vm_compute in
    snd (prepareStmt_run (demo_guest 19 16 []) (bytes_of_string "SELECT") demo_after_open).

Lemma prepareStmt_status_error_witness :
  fst (execSelectUsers (demo_guest 19 16 []) 5%nat (bytes_of_string "SELECT") demo_after_open)
  = inl (EngineError 19 (bytes_of_string "failed to prepare")).
Proof.
  rewrite (prepareStmt_status_error (demo_guest 19 16 []) 5%nat (bytes_of_string "SELECT")
             demo_after_open demo_prepare_fail_mid "get_result_ptr"%string
             (demo_fn (demo_guest 19 16 []) "get_result_ptr") [0]
             (mach demo_prepare_fail_mid) 0 [] 19).
  all: try (vm_compute; reflexivity).
  discriminate.
Defined.

(** ** Stepping and the row loop *)

(** [execStep] makes one step call with [[stmt]] and nothing else; its
    result is the call's first uint64 result [raw] read as a Go [int], so
    it is [SQLITE_ROW] exactly when [raw] is 100. *)
Theorem execStep_result g stmt st rc st' :
  execStep g stmt st = (inr rc, st') ->
  exists n raw rs,
    step (cl st) = Some n /\ cl st' = cl st /\
    trace st' = ECall n [stmt] (raw :: rs) :: trace st /\
    0 <= raw < 2 ^ 64 /\ rc = go_int raw /\
    (rc = SQLITE_ROW <-> raw = SQLITE_ROW).
Proof.
  intros H. unfold_ops H. split_in H. inversion H; subst; simpl.
  destruct results as [| r0 rs0]; [discriminate |]. simpl in Heql. inversion Heql; subst.
  exists s, (u64 r0), (map u64 rs0).
  assert (Hb : 0 <= u64 r0 < 2 ^ 64) by (unfold u64; apply Z.mod_pos_bound; lia).
  repeat (split; [first [eassumption | reflexivity] |]).
  unfold go_int, SQLITE_ROW. cbv zeta.
  replace (u64 (u64 r0)) with (u64 r0) by (unfold u64; rewrite Z.mod_mod; lia).
  destruct (Z.ltb_spec (u64 r0) (2 ^ 63)); split; intros; lia.
Qed.

Definition demo_step_run :=
  Eval vm_compute in execStep (demo_guest 0 16 []) 16 demo_rows3.

Lemma execStep_result_witness :
  exists n raw rs,
    step (cl demo_rows3) = Some n /\ cl (snd demo_step_run) = cl demo_rows3 /\
    trace (snd demo_step_run) = ECall n [16] (raw :: rs) :: trace demo_rows3 /\
    0 <= raw < 2 ^ 64 /\ 100 = go_int raw /\ (100 = SQLITE_ROW <-> raw = SQLITE_ROW).
Proof.
  apply (execStep_result (demo_guest 0 16 []) 16 demo_rows3 100 (snd demo_step_run)).
  vm_compute. reflexivity.
Defined.





(** Number of completed calls to the export [x] in a trace. *)
Fixpoint calls_to (x : string) (t : list event) : nat :=
  match t with
  | [] => O
  | ECall n _ _ :: t' => ((if String.eqb n x then 1 else 0) + calls_to x t')%nat
  | _ :: t' => calls_to x t'
  end.

Ltac count_by_cases :=
  let Hwf := fresh "Hwf" in let H := fresh "H" in
  intros Hwf H;
  unfold prepareStmt_run in H; unfold_ops H; split_in H;
  inversion H; subst; simpl;
  let W := fresh "W" in
  destruct Hwf as (W & W1 & W2 & W3 & W4 & W5 & W6 & W7 & W8);
  rewrite ?W, ?W1, ?W2, ?W3, ?W4, ?W5, ?W6, ?W7, ?W8 in *;
  repeat match goal with
  | E : ExportedFunction _ _ = Some _ |- _ => apply ExportedFunction_Some in E
  end;
  subst; simpl; reflexivity.

Lemma steps_readInt g stmt c st v st' :
  wf_client g (cl st) -> readInt g stmt c st = (inr v, st') ->
  calls_to "sqlite3_step" (trace st') = calls_to "sqlite3_step" (trace st).
Proof. count_by_cases. Qed.

Lemma steps_readText g stmt c st v st' :
  wf_client g (cl st) -> readText g stmt c st = (inr v, st') ->
  calls_to "sqlite3_step" (trace st') = calls_to "sqlite3_step" (trace st).
Proof. count_by_cases. Qed.

Lemma steps_execStep g stmt st v st' :
  wf_client g (cl st) -> execStep g stmt st = (inr v, st') ->
  calls_to "sqlite3_step" (trace st') = S (calls_to "sqlite3_step" (trace st)).
Proof. count_by_cases. Qed.

Lemma steps_prepareStmt_run g q st v st' :
  wf_client g (cl st) -> prepareStmt_run g q st = (inr v, st') ->
  calls_to "sqlite3_step" (trace st') = calls_to "sqlite3_step" (trace st).
Proof. count_by_cases. Qed.

Lemma steps_prepareStmt_result g st v st' :
  wf_client g (cl st) -> prepareStmt_result g st = (inr v, st') ->
  calls_to "sqlite3_step" (trace st') = calls_to "sqlite3_step" (trace st).
Proof. count_by_cases. Qed.

Lemma frame_cl g {A} (op : M A) st r st' :
  frame_ok g op -> wf_client g (cl st) -> op st = (r, st') -> cl st' = cl st.
Proof. intros F Hwf H. exact (proj1 (F _ _ _ Hwf H)). Qed.

Lemma steps_rowLoop g fuel stmt rc users st us st' :
  wf_client g (cl st) -> rowLoop g fuel stmt rc users st = (inr us, st') ->
  (calls_to "sqlite3_step" (trace st') + List.length users
   = calls_to "sqlite3_step" (trace st) + List.length us)%nat.
Proof.
  revert rc users st. induction fuel as [| fuel IH]; intros rc users st Hwf H; simpl in H.
  - destruct (rc =? SQLITE_ROW); inversion H; subst. reflexivity.
  - destruct (rc =? SQLITE_ROW).
    + step_monad; try discriminate.
      pose proof (steps_readInt _ _ _ _ _ _ Hwf H0) as S1.
      pose proof (frame_cl _ _ _ _ _ (frame_readInt g stmt 0) Hwf H0) as C1.
      rewrite <- C1 in Hwf.
      pose proof (steps_readText _ _ _ _ _ _ Hwf H1) as S2.
      pose proof (frame_cl _ _ _ _ _ (frame_readText g stmt 1) Hwf H1) as C2.
      rewrite <- C2 in Hwf.
      pose proof (steps_execStep _ _ _ _ _ Hwf H2) as S3.
      pose proof (frame_cl _ _ _ _ _ (frame_execStep g stmt) Hwf H2) as C3.
      rewrite <- C3 in Hwf.
      pose proof (IH _ _ _ Hwf H) as S4.
      rewrite length_app in S4. simpl in S4. lia.
    + inversion H; subst. reflexivity.
Qed.

(** A query that returns [us] made exactly [len(us) + 1] step calls: one
    per row, and the final one whose result ended the loop; neither the
    prepare phase nor the column reads call the step export. *)
Theorem execSelectUsers_step_calls g fuel q st us st' :
  wf_client g (cl st) ->
  execSelectUsers g fuel q st = (inr us, st') ->
  calls_to "sqlite3_step" (trace st') = (calls_to "sqlite3_step" (trace st) + S (List.length us))%nat.
Proof.
  intros Hwf H. unfold execSelectUsers, prepareStmt in H.
  apply bind_inv in H. destruct H as [(? & ? & _) | (stmt & st3 & Hp & H)]; [discriminate |].
  apply bind_inv in Hp. destruct Hp as [(? & ? & _) | ([] & st1 & Hr & Hp)]; [discriminate |].
  apply bind_inv in H. destruct H as [(? & ? & _) | (rc & st4 & Hs & H)]; [discriminate |].
  pose proof (steps_prepareStmt_run _ _ _ _ _ Hwf Hr) as S1.
  pose proof (frame_cl _ _ _ _ _ (frame_prepareStmt_run g q) Hwf Hr) as C1.
  rewrite <- C1 in Hwf.
  pose proof (steps_prepareStmt_result _ _ _ _ Hwf Hp) as S2.
  pose proof (frame_cl _ _ _ _ _ (frame_prepareStmt_result g) Hwf Hp) as C2.
  rewrite <- C2 in Hwf.
  pose proof (steps_execStep _ _ _ _ _ Hwf Hs) as S3.
  pose proof (frame_cl _ _ _ _ _ (frame_execStep g stmt) Hwf Hs) as C3.
  rewrite <- C3 in Hwf.
  pose proof (steps_rowLoop _ _ _ _ _ _ _ _ Hwf H) as S4.
  simpl in S4. lia.
Qed.

Definition demo_select_run :=
  Eval vm_compute in
    execSelectUsers (demo_guest 0 16 []) 10 (bytes_of_string "SELECT") demo_rows3.

Definition demo_select_users : list user :=
  Eval vm_compute in match fst demo_select_run with inr us => us | inl _ => [] end.

Lemma execSelectUsers_step_calls_witness :
  List.length demo_select_users = 3%nat /\
  calls_to "sqlite3_step" (trace (snd demo_select_run))
  = (calls_to "sqlite3_step" (trace demo_rows3) + 4)%nat.
Proof.
  split; [vm_compute; reflexivity |].
  apply (execSelectUsers_step_calls (demo_guest 0 16 []) 10 (bytes_of_string "SELECT")
           demo_rows3 demo_select_users (snd demo_select_run)).
  - repeat split.
  - vm_compute. reflexivity.
Defined.
